(** * go.py: the test-page script of webgl-canvas

    The script parses two switches and then runs at most two steps:
    - with [--test-render], read [webgl-canvas.js] and
      [test.template.html], and write [test.html], the template with the
      text [{}] replaced by the script;
    - with [--test-browser], hand [test.html] to the default browser.

    The development embeds the script over an explicit world (a file
    system and a log of the input/output performed), with the exceptions
    of the file operations as the second outcome of a computation. A
    file is the text that Python's text mode reads from it and writes to
    it; encodings and line endings are below this model. *)

From Stdlib Require Import String Ascii.
From stdpp Require Import gmap strings list fin_maps.

Local Open Scope string_scope.

(** ** Text: [str.replace] *)

Module Str.

(** [sep.join(parts)]. *)
Fixpoint join (sep : string) (parts : list string) : string :=
  match parts with
  | [] => ""
  | [p] => p
  | p :: rest => p +:+ sep +:+ join sep rest
  end.

(** [s[n:]]. *)
Fixpoint drop (n : nat) (s : string) : string :=
  match n, s with
  | S k, String _ s' => drop k s'
  | _, _ => s
  end.

(** The scan of [s.replace(old, new)] for a non-empty [old], left to
    right: [skip] counts the characters of a matched occurrence that are
    still to be passed over, so occurrences are matched without
    overlap. *)
Fixpoint replace_scan (old new : string) (skip : nat) (s : string) : string :=
  match s with
  | "" => ""
  | String c s' =>
      match skip with
      | S k => replace_scan old new k s'
      | O =>
          if String.prefix old s
          then new +:+ replace_scan old new (String.length old - 1) s'
          else String c (replace_scan old new 0 s')
      end
  end.

(** [s.replace("", new)]: [new] before every character and at the end. *)
Fixpoint replace_empty (new s : string) : string :=
  match s with
  | "" => new
  | String c s' => new +:+ String c (replace_empty new s')
  end.

(** [s.replace(old, new)]. *)
Definition replace (old new s : string) : string :=
  match old with
  | "" => replace_empty new s
  | _ => replace_scan old new 0 s
  end.

(** [old in s]. *)
Fixpoint contains (old s : string) : bool :=
  String.prefix old s ||
  match s with
  | "" => false
  | String _ s' => contains old s'
  end.

(** The number of positions of [s] at which [old] starts. *)
Fixpoint occurrences (old s : string) : nat :=
  (if String.prefix old s then 1 else 0) +
  match s with
  | "" => 0
  | String _ s' => occurrences old s'
  end.

End Str.

(** ** The world of the script *)

(** The mode of [open]: ['r'] (the default) or ['w']. *)
Inductive Mode := ModeR | ModeW.

(** What the process does to its surroundings, in the order it does it. *)
Inductive Event :=
| EvOpen (path : string) (mode : Mode)
| EvOpenFailed (path : string) (mode : Mode)
| EvRead (path : string)
| EvWrite (path : string) (text : string)
| EvClose (path : string)
| EvBrowser (url : string).

(** The exceptions of the file operations. *)
Inductive Exn :=
| FileNotFoundError (path : string)
| PermissionError (path : string)
| UnsupportedOperation (what : string).

(** The working directory ([files], the text of each file that exists,
    and [unreadable], the paths whose [open] for reading is refused), the
    answer of the platform's browser launcher, and the log of events. *)
Record World := mkWorld {
  files : gmap string string;
  unreadable : gset string;
  browser : bool;
  log : list Event
}.

(** A file object: the path it was opened on and the mode. *)
Record File := mkFile { fpath : string; fmode : Mode }.

(** ** Computations: a world is threaded, an exception ends the run *)

Inductive Outcome (A : Type) :=
| Ok (a : A)
| Raised (e : Exn).
Arguments Ok {A} a.
Arguments Raised {A} e.

Definition M (A : Type) : Type := World -> Outcome A * World.

Definition ret {A} (a : A) : M A := fun w => (Ok a, w).

Definition raise {A} (e : Exn) : M A := fun w => (Raised e, w).

Definition bind {A B} (m : M A) (k : A -> M B) : M B :=
  fun w =>
    match m w with
    | (Ok a, w') => k a w'
    | (Raised e, w') => (Raised e, w')
    end.

Notation "x <- m ;; k" := (bind m (fun x => k))
  (at level 100, m at next level, right associativity).
Notation "m ;;; k" := (bind m (fun _ => k))
  (at level 100, right associativity).

(** [try: m finally: h], the shape of a [with] block's exit. *)
Definition finally {A} (m : M A) (h : M unit) : M A :=
  fun w =>
    match m w with
    | (Ok a, w') =>
        match h w' with
        | (Ok _, w'') => (Ok a, w'')
        | (Raised e, w'') => (Raised e, w'')
        end
    | (Raised e, w') =>
        match h w' with
        | (Ok _, w'') => (Raised e, w'')
        | (Raised e', w'') => (Raised e', w'')
        end
    end.

(** [if c: m]. *)
Definition when (c : bool) (m : M unit) : M unit :=
  if c then m else ret tt.

Definition emit (e : Event) : M unit :=
  fun w => (Ok tt, mkWorld (files w) (unreadable w) (browser w) (log w ++ [e])).

Definition set_file (path text : string) : M unit :=
  fun w => (Ok tt, mkWorld (<[path := text]> (files w)) (unreadable w) (browser w) (log w)).

(** ** File objects and the browser *)

(** [open(path, mode)]: reading needs a file that exists and may be read;
    writing creates the file or empties it (the working directory is
    taken to accept the write). *)
Definition open (path : string) (mode : Mode) : M File :=
  fun w =>
    match mode with
    | ModeR =>
        match files w !! path with
        | None => (emit (EvOpenFailed path mode) ;;; raise (FileNotFoundError path)) w
        | Some _ =>
            if decide (path ∈ unreadable w)
            then (emit (EvOpenFailed path mode) ;;; raise (PermissionError path)) w
            else (emit (EvOpen path mode) ;;; ret (mkFile path mode)) w
        end
    | ModeW =>
        (set_file path "" ;;; emit (EvOpen path mode) ;;; ret (mkFile path mode)) w
    end.

(** [f.read()]: the whole text; the file is taken to hold text, so the
    decoding does not fail. No operation removes a file, so the file of
    an open file object is in the map. *)
Definition read (f : File) : M string :=
  fun w =>
    match fmode f with
    | ModeR => (emit (EvRead (fpath f)) ;;; ret (default "" (files w !! fpath f))) w
    | ModeW => raise (UnsupportedOperation "not readable") w
    end.

(** [f.write(text)]: the text goes after what the file object wrote so
    far; the result is the number of characters written. *)
Definition write (f : File) (text : string) : M nat :=
  fun w =>
    match fmode f with
    | ModeW =>
        (set_file (fpath f) (default "" (files w !! fpath f) +:+ text) ;;;
         emit (EvWrite (fpath f) text) ;;;
         ret (String.length text)) w
    | ModeR => raise (UnsupportedOperation "not writable") w
    end.

(** [f.close()]. *)
Definition close (f : File) : M unit := emit (EvClose (fpath f)).

(** [with open(path, mode) as f: body]: the file is closed when the body
    is left, also by an exception. *)
Definition with_open {A} (path : string) (mode : Mode) (body : File -> M A) : M A :=
  f <- open path mode ;;
  finally (body f) (close f).

(** [webbrowser.open(url)]: asks the platform to show [url]; the result
    says whether a browser took it. *)
Definition webbrowser_open (url : string) : M bool :=
  fun w => (emit (EvBrowser url) ;;; ret (browser w)) w.

(** ** The script *)

(** The result of [parser.parse_args()]: one attribute per switch. *)
Record Namespace := mkNamespace { test_render : bool; test_browser : bool }.

(** Lines 10 to 12. *)
Definition render_step : M unit :=
  webgl_canvas <- with_open "webgl-canvas.js" ModeR (fun f => read f) ;;
  contents <- with_open "test.template.html" ModeR (fun f => read f) ;;
  with_open "test.html" ModeW
    (fun f => write f (Str.replace "{}" webgl_canvas contents) ;;; ret tt).

(** Line 15; the result of [webbrowser.open] is dropped. *)
Definition browser_step : M unit :=
  webbrowser_open "test.html" ;;; ret tt.

(** Lines 9 to 15. *)
Definition script (args : Namespace) : M unit :=
  when (test_render args) render_step ;;;
  when (test_browser args) browser_step.

(** The exit status of the interpreter: 0 when the script runs to its
    end, 1 when an exception is not caught. *)
Definition exit_status {A} (o : Outcome A) : Z :=
  match o with
  | Ok _ => 0%Z
  | Raised _ => 1%Z
  end.

Definition main (args : Namespace) (w : World) : Z * World :=
  let (o, w') := script args w in (exit_status o, w').

(** ** Reading a run *)

(** The texts written to [path], in order. *)
Definition written (path : string) (l : list Event) : list string :=
  omap (fun e => match e with
                 | EvWrite p t => if decide (p = path) then Some t else None
                 | _ => None
                 end) l.

Definition is_file_event (e : Event) : bool :=
  match e with
  | EvBrowser _ => false
  | _ => true
  end.

Definition is_browser_event (e : Event) : bool :=
  match e with
  | EvBrowser _ => true
  | _ => false
  end.

(** A directory with the two inputs and nothing else. *)
Definition sample_world (js tmpl : string) : World :=
  mkWorld (<["webgl-canvas.js" := js]> (<["test.template.html" := tmpl]> ∅)) ∅ true [].

(** The inputs of the render step. *)
Definition js_path : string := "webgl-canvas.js".
Definition template_path : string := "test.template.html".
Definition page_path : string := "test.html".

(** What [with open(p) as f: f.read()] finds at [p]: the text, or the
    exception of [open]. *)
Definition lookup_text (w : World) (p : string) : Exn + string :=
  match files w !! p with
  | None => inl (FileNotFoundError p)
  | Some t => if decide (p ∈ unreadable w) then inl (PermissionError p) else inr t
  end.

(** The events of one run of the script from [w]. *)
Definition run_events (args : Namespace) (w : World) : list Event :=
  drop (length (log w)) (log (main args w).2).

(** The events of a render step that succeeds in writing [out]. *)
Definition render_events (out : string) : list Event :=
  [EvOpen js_path ModeR; EvRead js_path; EvClose js_path;
   EvOpen template_path ModeR; EvRead template_path; EvClose template_path;
   EvOpen page_path ModeW; EvWrite page_path out; EvClose page_path].

(** A text without the placeholder. *)
Definition placeholder_free (s : string) : Prop := Str.contains "{}" s = false.

(** The world [w] after the events [l]. *)
Definition logged (w : World) (l : list Event) : World :=
  mkWorld (files w) (unreadable w) (browser w) (log w ++ l).

(** The world [w] after the page got the text [out] and the events [l]. *)
Definition rendered (w : World) (out : string) (l : list Event) : World :=
  mkWorld (<[page_path := out]> (files w)) (unreadable w) (browser w) (log w ++ l).

(** The events of the browser step when [flag] is set. *)
Definition browser_events (flag : bool) : list Event :=
  if flag then [EvBrowser page_path] else [].

(** The world [w] with the page as [prior] says: a text, or no file. *)
Definition with_page (prior : option string) (w : World) : World :=
  mkWorld (partial_alter (fun _ => prior) page_path (files w))
          (unreadable w) (browser w) (log w).

(** A directory without files. *)
Definition empty_dir : World := mkWorld ∅ ∅ true [].

(** The four settings of the switches. *)
Definition both_flags : Namespace := mkNamespace true true.
Definition render_only : Namespace := mkNamespace true false.
Definition browser_only : Namespace := mkNamespace false true.
Definition no_flags : Namespace := mkNamespace false false.

(** ** Reading the discipline of a run *)

(** Whether the events [l] keep file objects scoped, starting with the
    file object [h] open (or none): a file is opened only when none is
    open, read or written only through the open file object and in its
    mode, closed before anything else is opened, and the browser is asked
    only when no file is open; at the end no file is open. *)
Fixpoint scoped_from (h : option File) (l : list Event) : bool :=
  match l with
  | [] => match h with None => true | Some _ => false end
  | e :: l' =>
      match e, h with
      | EvOpen p m, None => scoped_from (Some (mkFile p m)) l'
      | EvOpenFailed _ _, None => scoped_from None l'
      | EvRead p, Some f =>
          String.eqb p (fpath f) &&
          match fmode f with ModeR => scoped_from h l' | ModeW => false end
      | EvWrite p _, Some f =>
          String.eqb p (fpath f) &&
          match fmode f with ModeW => scoped_from h l' | ModeR => false end
      | EvClose p, Some f => String.eqb p (fpath f) && scoped_from None l'
      | EvBrowser _, None => scoped_from None l'
      | _, _ => false
      end
  end.

Definition scoped (l : list Event) : bool := scoped_from None l.

(** Whether an event is one the script may perform: the two inputs are
    only opened for reading, read and closed; the page is only opened for
    writing, written and closed, and is what the browser is asked for. *)
Definition permitted (e : Event) : bool :=
  match e with
  | EvOpen p ModeR | EvOpenFailed p ModeR | EvRead p =>
      String.eqb p js_path || String.eqb p template_path
  | EvOpen p ModeW | EvWrite p _ => String.eqb p page_path
  | EvOpenFailed _ ModeW => false
  | EvClose p =>
      String.eqb p js_path || String.eqb p template_path ||
      String.eqb p page_path
  | EvBrowser url => String.eqb url page_path
  end.

(** The world [w] with the browser launcher answering [b]. *)
Definition with_browser (b : bool) (w : World) : World :=
  mkWorld (files w) (unreadable w) b (log w).

(** The switches of a run of the render step alone, and of the browser
    step alone, of the switches [args]. *)
Definition render_part (args : Namespace) : Namespace :=
  mkNamespace (test_render args) false.

Definition browser_part (args : Namespace) : Namespace :=
  mkNamespace false (test_browser args).

(** * Properties *)

(** ** Strings *)

Section StringFacts.

Lemma append_nil_l (s : string) : "" +:+ s = s.
Proof. done. Qed.

Lemma append_cons c (s t : string) : String c s +:+ t = String c (s +:+ t).
Proof. done. Qed.

Lemma append_assoc (s t u : string) : (s +:+ t) +:+ u = s +:+ t +:+ u.
Proof.
  induction s as [|c s IH]; [done |].
  by rewrite !append_cons, IH.
Qed.

Lemma append_nil_r (s : string) : s +:+ "" = s.
Proof.
  induction s as [|c s IH]; [done |].
  by rewrite append_cons, IH.
Qed.

Lemma prefix_append (p s : string) : String.prefix p (p +:+ s) = true.
Proof.
  induction p as [|c p IH].
  - by destruct s.
  - rewrite append_cons. simpl.
    destruct (ascii_dec c c); [exact IH | done].
Qed.

Lemma prefix_split (p s : string) :
  String.prefix p s = true → ∃ r, s = p +:+ r.
Proof.
  revert s. induction p as [|c p IH]; intros s H.
  - by exists s.
  - destruct s as [|d s]; simpl in H; [done |].
    destruct (ascii_dec c d) as [->|]; [| done].
    destruct (IH _ H) as [r ->]. by exists r.
Qed.

Lemma drop_append (p s : string) : Str.drop (String.length p) (p +:+ s) = s.
Proof.
  induction p as [|c p IH]; [by destruct s |].
  rewrite append_cons. exact IH.
Qed.

Lemma contains_nil (old : string) :
  Str.contains old "" = String.prefix old "".
Proof. simpl. by rewrite orb_false_r. Qed.

Lemma contains_cons (old : string) c s :
  Str.contains old (String c s) =
  String.prefix old (String c s) || Str.contains old s.
Proof. done. Qed.

Lemma occurrences_cons (old : string) c s :
  Str.occurrences old (String c s) =
  (if String.prefix old (String c s) then 1 else 0) + Str.occurrences old s.
Proof. done. Qed.

(** [old in s] says that [s] is some text, [old], and some text. *)
Lemma contains_spec (old s : string) :
  Str.contains old s = true ↔ ∃ pre post, s = pre +:+ old +:+ post.
Proof.
  split.
  - induction s as [|c s IH].
    + rewrite contains_nil. intros [r ->]%prefix_split. by exists "", r.
    + rewrite contains_cons. intros [H|H]%orb_true_iff.
      * apply prefix_split in H as [r ->]. by exists "", r.
      * destruct (IH H) as (pre & post & ->). by exists (String c pre), post.
  - intros (pre & post & ->). induction pre as [|c pre IH].
    + rewrite append_nil_l.
      destruct (old +:+ post) as [|c s] eqn:E.
      * rewrite contains_nil, <- E. apply prefix_append.
      * by rewrite contains_cons, <- E, prefix_append.
    + by rewrite append_cons, contains_cons, IH, orb_true_r.
Qed.

Lemma join_cons sep c p ps :
  Str.join sep (String c p :: ps) = String c (Str.join sep (p :: ps)).
Proof. by destruct ps. Qed.

Lemma join_cons_cons sep p q ps :
  Str.join sep (p :: q :: ps) = p +:+ sep +:+ Str.join sep (q :: ps).
Proof. done. Qed.

End StringFacts.

(** ** [str.replace] *)

Example replace_twice : Str.replace "{}" "X" "A{}B{}C" = "AXBXC".
Proof. reflexivity. Qed.

Example replace_once :
  Str.replace "{}" "console.log(1);" "<html>{}</html>"
  = "<html>console.log(1);</html>".
Proof. reflexivity. Qed.

Example replace_no_overlap : Str.replace "aa" "b" "aaa" = "ba".
Proof. reflexivity. Qed.

Example replace_empty_old : Str.replace "" "-" "abc" = "-a-b-c-".
Proof. reflexivity. Qed.

(** Passing over [k] characters is dropping them. *)
Lemma replace_scan_skip old new k s :
  Str.replace_scan old new k s = Str.replace_scan old new 0 (Str.drop k s).
Proof.
  revert k. induction s as [|c s IH]; intros [|k]; try done.
  simpl Str.drop. rewrite <- IH. done.
Qed.

Section ReplaceFacts.

Variables old new : string.
Hypothesis old_nonempty : old ≠ "".

Lemma replace_nonempty s : Str.replace old new s = Str.replace_scan old new 0 s.
Proof using old_nonempty. unfold Str.replace. by destruct old. Qed.

(** An occurrence at the front is replaced and the scan goes on behind it. *)
Lemma replace_hit r :
  Str.replace old new (old +:+ r) = new +:+ Str.replace old new r.
Proof using old_nonempty.
  rewrite !replace_nonempty.
  destruct old as [|a o] eqn:E; [done |].
  rewrite append_cons. cbn [Str.replace_scan].
  pose proof (prefix_append (String a o) r) as Hp.
  rewrite append_cons in Hp. rewrite Hp, replace_scan_skip.
  cbn [String.length Nat.sub]. by rewrite Nat.sub_0_r, drop_append.
Qed.

(** A character at which no occurrence starts is copied. *)
Lemma replace_miss c s :
  String.prefix old (String c s) = false →
  Str.replace old new (String c s) = String c (Str.replace old new s).
Proof using old_nonempty.
  intros H. rewrite !replace_nonempty. cbn [Str.replace_scan]. by rewrite H.
Qed.

End ReplaceFacts.

(** ** The placeholder *)

Section Placeholder.

Lemma placeholder_nonempty : "{}" ≠ "".
Proof. done. Qed.

Lemma prefix_placeholder c s :
  String.prefix "{}" (String c s) = true →
  c = "{"%char ∧ ∃ s', s = String "}" s'.
Proof.
  intros [r E]%prefix_split. rewrite !append_cons in E.
  injection E as -> ->. eauto.
Qed.

Lemma free_nil : placeholder_free "".
Proof. done. Qed.

Lemma free_cons c s :
  placeholder_free (String c s) →
  String.prefix "{}" (String c s) = false ∧ placeholder_free s.
Proof.
  unfold placeholder_free. rewrite contains_cons.
  by intros [? ?]%orb_false_iff.
Qed.

Lemma free_cons_intro c s :
  String.prefix "{}" (String c s) = false → placeholder_free s →
  placeholder_free (String c s).
Proof.
  unfold placeholder_free. rewrite contains_cons. by intros -> ->.
Qed.

(** A text is free of the placeholder when it cannot be cut around one. *)
Lemma free_spec s :
  placeholder_free s ↔ ∀ pre post, s ≠ pre +:+ "{}" +:+ post.
Proof.
  unfold placeholder_free. split.
  - intros H pre post ->.
    assert (Str.contains "{}" (pre +:+ "{}" +:+ post) = true) as E
      by (apply contains_spec; eauto).
    congruence.
  - intros H. destruct (Str.contains "{}" s) eqn:E; [| done].
    apply contains_spec in E as (pre & post & ->). by destruct (H pre post).
Qed.

(** No occurrence starts in a free piece that a placeholder follows:
    the placeholder's first character does not end one. *)
Lemma prefix_free_then c p r :
  placeholder_free (String c p) →
  String.prefix "{}" (String c (p +:+ "{}" +:+ r)) = false.
Proof.
  intros [Hc Hp]%free_cons.
  destruct (String.prefix "{}" (String c (p +:+ "{}" +:+ r))) eqn:E; [| done].
  apply prefix_placeholder in E as [-> [s' E]].
  destruct p as [|d p]; [done |].
  rewrite append_cons in E. injection E as -> _.
  rewrite <- Hc. symmetry. apply (prefix_append "{}" p).
Qed.

Lemma prefix_close r : String.prefix "{}" (String "}" r) = false.
Proof. done. Qed.

End Placeholder.

(** ** Replacing the placeholder *)

Section ReplacePlaceholder.

Variable F : string.

Local Abbreviation subst := (Str.replace "{}" F).

(** A free text is copied. *)
Lemma replace_free p : placeholder_free p → subst p = p.
Proof.
  induction p as [|c p IH]; [done |].
  intros [Hc Hp]%free_cons.
  rewrite (replace_miss _ _ placeholder_nonempty) by done.
  by rewrite IH.
Qed.

(** A free text is copied up to the placeholder behind it, which is
    replaced. *)
Lemma replace_piece p r :
  placeholder_free p → subst (p +:+ "{}" +:+ r) = p +:+ F +:+ subst r.
Proof.
  induction p as [|c p IH]; intros Hp.
  - rewrite !append_nil_l. apply (replace_hit _ _ placeholder_nonempty).
  - rewrite !(append_cons c p).
    rewrite (replace_miss _ _ placeholder_nonempty)
      by (by apply prefix_free_then).
    apply free_cons in Hp as [_ Hp]. by rewrite IH.
Qed.

(** The template cut at its placeholders is rendered by joining the
    pieces with the script. *)
Lemma replace_join ps :
  Forall placeholder_free ps → subst (Str.join "{}" ps) = Str.join F ps.
Proof.
  induction 1 as [|p ps Hp Hps IH]; [done |].
  destruct ps as [|q ps]; [by apply replace_free |].
  rewrite !join_cons_cons, replace_piece by done. by rewrite IH.
Qed.

End ReplacePlaceholder.

(** ** Cutting a text at its placeholders *)

Section Pieces.

Lemma occurrences_free p : placeholder_free p → Str.occurrences "{}" p = 0.
Proof.
  induction p as [|c p IH]; [done |].
  intros [Hc Hp]%free_cons.
  by rewrite occurrences_cons, Hc, IH.
Qed.

Lemma occurrences_piece p r :
  placeholder_free p →
  Str.occurrences "{}" (p +:+ "{}" +:+ r) = S (Str.occurrences "{}" r).
Proof.
  induction p as [|c p IH]; intros Hp.
  - rewrite append_nil_l.
    change ("{}" +:+ r) with (String "{" (String "}" r)).
    rewrite !occurrences_cons, prefix_close.
    pose proof (prefix_append "{}" r) as E.
    change ("{}" +:+ r) with (String "{" (String "}" r)) in E.
    by rewrite E.
  - rewrite (append_cons c p), occurrences_cons, prefix_free_then by done.
    apply free_cons in Hp as [_ Hp]. by rewrite IH.
Qed.

(** The placeholders of a joined text are the joints. *)
Lemma occurrences_join ps :
  Forall placeholder_free ps →
  Str.occurrences "{}" (Str.join "{}" ps) = length ps - 1.
Proof.
  induction 1 as [|p ps Hp Hps IH]; [done |].
  destruct ps as [|q ps]; [by apply occurrences_free |].
  rewrite join_cons_cons, occurrences_piece, IH by done.
  simpl. lia.
Qed.

(** Every text is free pieces joined by placeholders. *)
Lemma pieces_exist T :
  ∃ p ps, T = Str.join "{}" (p :: ps) ∧ Forall placeholder_free (p :: ps).
Proof.
  induction T as [|c T (p & ps & -> & Hall)].
  - exists "", []. split; [done |]. repeat constructor.
  - apply Forall_cons in Hall as [Hp Hps].
    destruct (String.prefix "{}" (String c p)) eqn:E.
    + apply prefix_placeholder in E as [-> [p' ->]].
      exists "", (p' :: ps). split.
      * by rewrite join_cons, join_cons_cons, append_nil_l.
      * constructor; [apply free_nil |].
        constructor; [| done]. by apply free_cons in Hp as [_ ?].
    + exists (String c p), ps. split; [by rewrite join_cons |].
      constructor; [by apply free_cons_intro | done].
Qed.

End Pieces.

(** ** The steps of the script *)

Create HintDb script discriminated.
#[local] Hint Unfold with_open finally bind open read write close
  webbrowser_open emit set_file ret raise when : script.

(** Runs the operations of a step on the world at hand. *)
Ltac run_ops := autounfold with script; simpl.

Section Steps.

Implicit Types (w : World) (p : string).

Lemma bind_run {A B} (m : M A) (k : A → M B) w :
  (x <- m ;; k x) w =
  match m w with
  | (Ok a, w') => k a w'
  | (Raised e, w') => (Raised e, w')
  end.
Proof. done. Qed.

Lemma logged_logged w l1 l2 : logged (logged w l1) l2 = logged w (l1 ++ l2).
Proof. unfold logged. simpl. by rewrite <- app_assoc. Qed.

Lemma lookup_text_logged w l p : lookup_text (logged w l) p = lookup_text w p.
Proof. done. Qed.

(** [with open(p) as f: f.read()]. *)
Lemma with_open_read w p :
  with_open p ModeR (fun f => read f) w =
  match lookup_text w p with
  | inr t => (Ok t, logged w [EvOpen p ModeR; EvRead p; EvClose p])
  | inl e => (Raised e, logged w [EvOpenFailed p ModeR])
  end.
Proof.
  unfold lookup_text, logged. run_ops.
  destruct (files w !! p) as [t|] eqn:E; [| done].
  destruct (decide (p ∈ unreadable w)); [done |].
  simpl. by rewrite E, <- !app_assoc.
Qed.

(** [with open(p, 'w') as f: f.write(t)]. *)
Lemma with_open_write w p t :
  with_open p ModeW (fun f => write f t ;;; ret tt) w =
  (Ok tt, mkWorld (<[p := t]> (files w)) (unreadable w) (browser w)
                  (log w ++ [EvOpen p ModeW; EvWrite p t; EvClose p])).
Proof.
  run_ops. rewrite lookup_insert_eq. simpl.
  by rewrite insert_insert_eq, <- !app_assoc.
Qed.

Lemma render_step_js_fails w e :
  lookup_text w js_path = inl e →
  render_step w = (Raised e, logged w [EvOpenFailed js_path ModeR]).
Proof.
  intros E. unfold render_step. fold js_path.
  by rewrite bind_run, with_open_read, E.
Qed.

Lemma render_step_template_fails w F e :
  lookup_text w js_path = inr F →
  lookup_text w template_path = inl e →
  render_step w =
  (Raised e, logged w [EvOpen js_path ModeR; EvRead js_path; EvClose js_path;
                       EvOpenFailed template_path ModeR]).
Proof.
  intros EF ET. unfold render_step. fold js_path template_path.
  rewrite bind_run, with_open_read, EF.
  rewrite bind_run, with_open_read, lookup_text_logged, ET.
  by rewrite logged_logged.
Qed.

Lemma render_step_succeeds w F T :
  lookup_text w js_path = inr F →
  lookup_text w template_path = inr T →
  render_step w =
  (Ok tt, rendered w (Str.replace "{}" F T)
                   (render_events (Str.replace "{}" F T))).
Proof.
  intros EF ET. unfold render_step. fold js_path template_path page_path.
  rewrite bind_run, with_open_read, EF.
  rewrite bind_run, with_open_read, lookup_text_logged, ET.
  rewrite with_open_write. unfold rendered, render_events. simpl.
  by rewrite <- !app_assoc.
Qed.

Lemma browser_step_run w :
  browser_step w = (Ok tt, logged w [EvBrowser page_path]).
Proof. done. Qed.

End Steps.

(** ** The runs of the script *)

Section Runs.

Implicit Types (w : World) (args : Namespace).

Lemma logged_nil w : logged w [] = w.
Proof. destruct w. unfold logged. simpl. by rewrite app_nil_r. Qed.

Lemma main_run args w :
  main args w =
  match (when (test_render args) render_step) w with
  | (Ok _, w') => (0%Z, logged w' (browser_events (test_browser args)))
  | (Raised _, w') => (1%Z, w')
  end.
Proof.
  unfold main, script. rewrite bind_run.
  destruct (when (test_render args) render_step w) as [[[]|e] w']; [| done].
  destruct (test_browser args); simpl; [done |].
  by rewrite logged_nil.
Qed.

(** An exception of the render step ends the script; otherwise the
    browser step follows. *)
Lemma script_run args w :
  script args w =
  match when (test_render args) render_step w with
  | (Ok _, w') => when (test_browser args) browser_step w'
  | (Raised e, w') => (Raised e, w')
  end.
Proof. done. Qed.

Lemma main_no_render args w :
  test_render args = false →
  main args w = (0%Z, logged w (browser_events (test_browser args))).
Proof. intros E. by rewrite main_run, E. Qed.

Lemma main_js_fails args w e :
  test_render args = true →
  lookup_text w js_path = inl e →
  main args w = (1%Z, logged w [EvOpenFailed js_path ModeR]).
Proof.
  intros E Hjs. rewrite main_run, E. simpl.
  by rewrite (render_step_js_fails _ _ Hjs).
Qed.

Lemma main_template_fails args w F e :
  test_render args = true →
  lookup_text w js_path = inr F →
  lookup_text w template_path = inl e →
  main args w =
  (1%Z, logged w [EvOpen js_path ModeR; EvRead js_path; EvClose js_path;
                  EvOpenFailed template_path ModeR]).
Proof.
  intros E Hjs Ht. rewrite main_run, E. simpl.
  by rewrite (render_step_template_fails _ _ _ Hjs Ht).
Qed.

Lemma main_renders args w F T :
  test_render args = true →
  lookup_text w js_path = inr F →
  lookup_text w template_path = inr T →
  main args w =
  (0%Z, rendered w (Str.replace "{}" F T)
          (render_events (Str.replace "{}" F T) ++
           browser_events (test_browser args))).
Proof.
  intros E Hjs Ht. rewrite main_run, E. simpl.
  rewrite (render_step_succeeds _ _ _ Hjs Ht).
  unfold logged, rendered. simpl. by rewrite <- app_assoc.
Qed.

Lemma run_events_of args w st fs un br l :
  main args w = (st, mkWorld fs un br (log w ++ l)) →
  run_events args w = l.
Proof. unfold run_events. intros ->. simpl. apply drop_app_length. Qed.

Lemma written_render_events out b :
  written page_path (render_events out ++ browser_events b) = [out].
Proof. by destruct b. Qed.

(** A failed input leaves the directory as it is; the cases of
    [lookup_text]. *)
Lemma lookup_text_cases w p :
  (∃ e, lookup_text w p = inl e) ∨ (∃ t, lookup_text w p = inr t).
Proof. destruct (lookup_text w p); eauto. Qed.

End Runs.

(** * The claims *)

(** C1. With [--test-render] set and the two inputs readable, the run
    ends with status 0 and has written to [test.html], in one write, the
    template with every occurrence of [{}] replaced by the script and
    every other character kept: the template is a sequence of pieces free
    of [{}] joined by [{}], its occurrences of [{}] are exactly the
    joints, and the page is the same pieces joined by the script. *)
Theorem render_writes_substitution args w F T :
  test_render args = true →
  lookup_text w js_path = inr F →
  lookup_text w template_path = inr T →
  (main args w).1 = 0%Z ∧
  files (main args w).2 !! page_path = Some (Str.replace "{}" F T) ∧
  written page_path (run_events args w) = [Str.replace "{}" F T] ∧
  ∃ p ps,
    Forall placeholder_free (p :: ps) ∧
    T = Str.join "{}" (p :: ps) ∧
    Str.occurrences "{}" T = length ps ∧
    Str.replace "{}" F T = Str.join F (p :: ps).
Proof.
  intros E Hjs Ht. pose proof (main_renders _ _ _ _ E Hjs Ht) as Hm.
  rewrite (run_events_of _ _ _ _ _ _ _ Hm), Hm.
  unfold rendered. cbn [fst snd files].
  split; [done |]. split; [apply lookup_insert_eq |].
  split; [apply written_render_events |].
  destruct (pieces_exist T) as (p & ps & HT & Hall).
  exists p, ps. split; [done |]. split; [done |].
  rewrite HT, occurrences_join, replace_join by done.
  cbn [length]. split; [lia | done].
Qed.

Lemma render_writes_substitution_witness :
  test_render render_only = true ∧
  lookup_text (sample_world "X" "A{}B{}C") js_path = inr "X" ∧
  lookup_text (sample_world "X" "A{}B{}C") template_path = inr "A{}B{}C" ∧
  files (main render_only (sample_world "X" "A{}B{}C")).2 !! page_path
  = Some (Str.replace "{}" "X" "A{}B{}C").
Proof.
  split; [reflexivity |]. split; [reflexivity |]. split; [reflexivity |].
  apply (render_writes_substitution render_only
           (sample_world "X" "A{}B{}C") "X" "A{}B{}C"); reflexivity.
Defined.

(** The example of the specification. *)
Example render_example :
  files (main render_only (sample_world "X" "A{}B{}C")).2 !! page_path
  = Some "AXBXC".
Proof. reflexivity. Qed.

(** C5. With neither switch set the run does nothing: no event (no file
    is opened, read or written and no browser is asked), the world is the
    one before, and the status is 0. *)
Theorem no_flags_no_effect args w :
  test_render args = false →
  test_browser args = false →
  main args w = (0%Z, w) ∧ run_events args w = [].
Proof.
  intros Er Eb.
  assert (main args w = (0%Z, w)) as Hm.
  { rewrite (main_no_render _ _ Er), Eb. f_equal. apply logged_nil. }
  split; [done |]. unfold run_events. rewrite Hm. apply drop_all.
Qed.

Lemma no_flags_no_effect_witness :
  test_render no_flags = false ∧
  test_browser no_flags = false ∧
  main no_flags (sample_world "X" "A{}B{}C") = (0%Z, sample_world "X" "A{}B{}C") ∧
  run_events no_flags (sample_world "X" "A{}B{}C") = [].
Proof.
  split; [reflexivity |]. split; [reflexivity |].
  apply (no_flags_no_effect no_flags (sample_world "X" "A{}B{}C")); reflexivity.
Defined.

(** C6. When the template cannot be cut around an occurrence of [{}],
    the render step succeeds and writes the template as it is, whatever
    the script. *)
Theorem render_without_placeholder args w F T :
  test_render args = true →
  lookup_text w js_path = inr F →
  lookup_text w template_path = inr T →
  (∀ pre post, T ≠ pre +:+ "{}" +:+ post) →
  (main args w).1 = 0%Z ∧
  files (main args w).2 !! page_path = Some T ∧
  written page_path (run_events args w) = [T].
Proof.
  intros E Hjs Ht Hfree%free_spec.
  pose proof (main_renders _ _ _ _ E Hjs Ht) as Hm.
  rewrite (replace_free _ _ Hfree) in Hm.
  rewrite (run_events_of _ _ _ _ _ _ _ Hm), Hm.
  unfold rendered. cbn [fst snd files].
  split; [done |]. split; [apply lookup_insert_eq |].
  apply written_render_events.
Qed.

Lemma render_without_placeholder_witness :
  test_render render_only = true ∧
  lookup_text (sample_world "f();" "<p></p>") js_path = inr "f();" ∧
  lookup_text (sample_world "f();" "<p></p>") template_path = inr "<p></p>" ∧
  (∀ pre post, "<p></p>" ≠ pre +:+ "{}" +:+ post) ∧
  files (main render_only (sample_world "f();" "<p></p>")).2 !! page_path
  = Some "<p></p>".
Proof.
  assert (∀ pre post, "<p></p>" ≠ pre +:+ "{}" +:+ post) as Hfree
    by (apply free_spec; reflexivity).
  split; [reflexivity |]. split; [reflexivity |]. split; [reflexivity |].
  split; [exact Hfree |].
  apply (render_without_placeholder render_only
           (sample_world "f();" "<p></p>") "f();" "<p></p>");
    [reflexivity | reflexivity | reflexivity | exact Hfree].
Defined.

(** C8. With [--test-browser] alone the run asks the browser for
    [test.html] and does nothing else: no file is opened or written, and
    every file keeps its text. *)
Theorem browser_only_keeps_files args w :
  test_render args = false →
  test_browser args = true →
  (main args w).1 = 0%Z ∧
  run_events args w = [EvBrowser page_path] ∧
  files (main args w).2 = files w ∧
  unreadable (main args w).2 = unreadable w.
Proof.
  intros Er Eb. pose proof (main_no_render _ w Er) as Hm.
  rewrite Eb in Hm. rewrite (run_events_of _ _ _ _ _ _ _ Hm), Hm. done.
Qed.

Lemma browser_only_keeps_files_witness :
  test_render browser_only = false ∧
  test_browser browser_only = true ∧
  files (main browser_only (sample_world "X" "A{}B{}C")).2
  = files (sample_world "X" "A{}B{}C").
Proof.
  split; [reflexivity |]. split; [reflexivity |].
  apply (browser_only_keeps_files browser_only (sample_world "X" "A{}B{}C"));
    reflexivity.
Defined.

(** Cuts a list of events that is known in full at the event sought. *)
Ltac cut_events pre := repeat (destruct pre as [|? pre]; simplify_eq/=).

(** Decides whether an event is in a list of events that is known in
    full. *)
Ltac absent H :=
  repeat (apply elem_of_cons in H as [H|H]; [discriminate |]);
  by apply elem_of_nil in H.

(** C2. With [--test-render] set and an input absent or unreadable, the
    run ends with a status that is not 0, every file is as before
    ([test.html] neither created nor changed), and [test.html] is
    neither opened for writing nor written. In every run, an opening of
    [test.html] for writing comes after both inputs were opened, read
    and closed. *)
Theorem render_fails_without_input args w :
  (test_render args = true →
   (∃ e, lookup_text w js_path = inl e) ∨
   (∃ e, lookup_text w template_path = inl e) →
   (main args w).1 ≠ 0%Z ∧
   files (main args w).2 = files w ∧
   Forall (λ e, e ≠ EvOpen page_path ModeW ∧ ∀ t, e ≠ EvWrite page_path t)
          (run_events args w)) ∧
  (∀ pre post,
     run_events args w = (pre ++ EvOpen page_path ModeW :: post)%list →
     (∃ F T, lookup_text w js_path = inr F ∧
             lookup_text w template_path = inr T) ∧
     pre = [EvOpen js_path ModeR; EvRead js_path; EvClose js_path;
            EvOpen template_path ModeR; EvRead template_path;
            EvClose template_path]).
Proof.
  split.
  - intros E Hfail.
    destruct (lookup_text_cases w js_path) as [[e Hjs]|[F Hjs]].
    + pose proof (main_js_fails _ _ _ E Hjs) as Hm.
      rewrite (run_events_of _ _ _ _ _ _ _ Hm), Hm.
      split; [done |]. split; [done |]. by repeat constructor.
    + destruct Hfail as [[e He]|[e Ht]]; [congruence |].
      pose proof (main_template_fails _ _ _ _ E Hjs Ht) as Hm.
      rewrite (run_events_of _ _ _ _ _ _ _ Hm), Hm.
      split; [done |]. split; [done |]. by repeat constructor.
  - intros pre post Hcut.
    destruct (test_render args) eqn:E.
    + destruct (lookup_text_cases w js_path) as [[e Hjs]|[F Hjs]].
      { pose proof (main_js_fails _ _ _ E Hjs) as Hm.
        rewrite (run_events_of _ _ _ _ _ _ _ Hm) in Hcut. cut_events pre. }
      destruct (lookup_text_cases w template_path) as [[e Ht]|[T Ht]].
      { pose proof (main_template_fails _ _ _ _ E Hjs Ht) as Hm.
        rewrite (run_events_of _ _ _ _ _ _ _ Hm) in Hcut. cut_events pre. }
      pose proof (main_renders _ _ _ _ E Hjs Ht) as Hm.
      rewrite (run_events_of _ _ _ _ _ _ _ Hm) in Hcut.
      split; [eauto |].
      destruct (test_browser args); cut_events pre; done.
    + pose proof (main_no_render _ w E) as Hm.
      rewrite (run_events_of _ _ _ _ _ _ _ Hm) in Hcut.
      destruct (test_browser args); cut_events pre.
Qed.

Lemma render_fails_without_input_witness :
  test_render both_flags = true ∧
  ((∃ e, lookup_text empty_dir js_path = inl e) ∨
   (∃ e, lookup_text empty_dir template_path = inl e)) ∧
  (main both_flags empty_dir).1 ≠ 0%Z ∧
  files (main both_flags empty_dir).2 = files empty_dir.
Proof.
  assert ((∃ e, lookup_text empty_dir js_path = inl e) ∨
          (∃ e, lookup_text empty_dir template_path = inl e)) as Hfail
    by (left; eexists; reflexivity).
  split; [reflexivity |]. split; [exact Hfail |].
  destruct (proj1 (render_fails_without_input both_flags empty_dir)
              eq_refl Hfail) as (Hst & Hfiles & _).
  split; [exact Hst | exact Hfiles].
Defined.

(** C3, as stated, fails: with both switches set in a directory without
    the inputs, the render step raises, the run ends with status 1, and
    the browser is not asked. *)
Lemma browser_after_failed_render_counterexample :
  test_render both_flags = true ∧
  test_browser both_flags = true ∧
  (main both_flags empty_dir).1 = 1%Z ∧
  EvBrowser page_path ∉ run_events both_flags empty_dir.
Proof.
  split; [reflexivity |]. split; [reflexivity |]. split; [reflexivity |].
  intros H. vm_compute in H. absent H.
Qed.

(** C3, amended. With [--test-browser] set, the browser is asked for
    [test.html] exactly when the render step did not run or ran to its
    end, whatever makes it run to its end; a render step that raises
    ends the script with its exception and the run with status 1, in
    the world the render step left, before the browser step. *)
Theorem browser_runs_unless_render_fails args w :
  test_browser args = true →
  (EvBrowser page_path ∈ run_events args w ↔
   test_render args = false ∨ (render_step w).1 = Ok tt) ∧
  (∀ e, test_render args = true →
        (render_step w).1 = Raised e →
        (script args w).1 = Raised e ∧
        main args w = (1%Z, (render_step w).2) ∧
        EvBrowser page_path ∉ run_events args w).
Proof.
  intros Eb. destruct (test_render args) eqn:E.
  - destruct (lookup_text_cases w js_path) as [[e Hjs]|[F Hjs]].
    { pose proof (main_js_fails _ _ _ E Hjs) as Hm.
      pose proof (render_step_js_fails _ _ Hjs) as Hr.
      assert (EvBrowser page_path ∉ run_events args w) as Hno.
      { rewrite (run_events_of _ _ _ _ _ _ _ Hm). intros H. absent H. }
      rewrite script_run, E, Hm. cbn [when]. rewrite Hr. cbn [fst snd].
      split; [split; [done | by intros [|]] |].
      by intros e' _ [= <-]. }
    destruct (lookup_text_cases w template_path) as [[e Ht]|[T Ht]].
    { pose proof (main_template_fails _ _ _ _ E Hjs Ht) as Hm.
      pose proof (render_step_template_fails _ _ _ Hjs Ht) as Hr.
      assert (EvBrowser page_path ∉ run_events args w) as Hno.
      { rewrite (run_events_of _ _ _ _ _ _ _ Hm). intros H. absent H. }
      rewrite script_run, E, Hm. cbn [when]. rewrite Hr. cbn [fst snd].
      split; [split; [done | by intros [|]] |].
      by intros e' _ [= <-]. }
    pose proof (main_renders _ _ _ _ E Hjs Ht) as Hm.
    rewrite (run_events_of _ _ _ _ _ _ _ Hm), Eb.
    rewrite (render_step_succeeds _ _ _ Hjs Ht). cbn [fst].
    split; [| done]. split; [by right |].
    intros _. apply elem_of_app. right. by apply list_elem_of_singleton.
  - pose proof (main_no_render _ w E) as Hm.
    rewrite (run_events_of _ _ _ _ _ _ _ Hm), Eb.
    split; [| done]. split; [by left |].
    intros _. by apply list_elem_of_singleton.
Qed.

Lemma browser_runs_unless_render_fails_witness :
  test_browser both_flags = true ∧
  (EvBrowser page_path ∈ run_events both_flags (sample_world "X" "A{}B{}C") ↔
   test_render both_flags = false ∨
   (render_step (sample_world "X" "A{}B{}C")).1 = Ok tt) ∧
  (∀ e, test_render both_flags = true →
        (render_step empty_dir).1 = Raised e →
        main both_flags empty_dir = (1%Z, (render_step empty_dir).2)).
Proof.
  split; [reflexivity |]. split.
  - exact (proj1 (browser_runs_unless_render_fails both_flags
                    (sample_world "X" "A{}B{}C") eq_refl)).
  - intros e E Hr.
    exact (proj1 (proj2 (proj2 (browser_runs_unless_render_fails both_flags
                                  empty_dir eq_refl) e E Hr))).
Defined.

(** C4. With both switches set, either the render step runs to its end
    and the events of the run are those of the render step, ending with
    the write to [test.html] and its close, followed by the single
    request to the browser; or the render step raises and the browser is
    never asked. So wherever the request to the browser stands, the
    whole render step stands before it and nothing after it. *)
Theorem render_before_browser args w :
  test_render args = true →
  test_browser args = true →
  ((∃ F T, lookup_text w js_path = inr F ∧
           lookup_text w template_path = inr T ∧
           run_events args w =
           (render_events (Str.replace "{}" F T) ++ [EvBrowser page_path])%list) ∨
   ((main args w).1 ≠ 0%Z ∧
    Forall (λ e, is_browser_event e = false) (run_events args w))) ∧
  (∀ pre post url,
     run_events args w = (pre ++ EvBrowser url :: post)%list →
     post = [] ∧ Forall (λ e, is_file_event e = true) pre ∧
     ∃ out, pre = render_events out ∧
            files (main args w).2 !! page_path = Some out).
Proof.
  intros E Eb.
  destruct (lookup_text_cases w js_path) as [[e Hjs]|[F Hjs]].
  { pose proof (main_js_fails _ _ _ E Hjs) as Hm.
    rewrite (run_events_of _ _ _ _ _ _ _ Hm), Hm. split.
    - right. split; [done |]. by repeat constructor.
    - intros pre post url Hcut. cut_events pre. }
  destruct (lookup_text_cases w template_path) as [[e Ht]|[T Ht]].
  { pose proof (main_template_fails _ _ _ _ E Hjs Ht) as Hm.
    rewrite (run_events_of _ _ _ _ _ _ _ Hm), Hm. split.
    - right. split; [done |]. by repeat constructor.
    - intros pre post url Hcut. cut_events pre. }
  pose proof (main_renders _ _ _ _ E Hjs Ht) as Hm.
  rewrite (run_events_of _ _ _ _ _ _ _ Hm), Hm, Eb. split.
  - left. eauto.
  - intros pre post url Hcut. cut_events pre.
    split; [done |]. split; [by repeat constructor |].
    eexists. split; [done |]. apply lookup_insert_eq.
Qed.

Lemma render_before_browser_witness :
  test_render both_flags = true ∧
  test_browser both_flags = true ∧
  run_events both_flags (sample_world "X" "A{}B{}C") =
  (render_events "AXBXC" ++ [EvBrowser page_path])%list.
Proof.
  split; [reflexivity |]. split; [reflexivity |].
  destruct (proj1 (render_before_browser both_flags
                     (sample_world "X" "A{}B{}C") eq_refl eq_refl))
    as [(F & T & HF & HT & Hrun)|[Hst _]].
  - rewrite Hrun. vm_compute in HF, HT. by simplify_eq.
  - by destruct Hst.
Defined.

(** ** Runs from worlds with the same inputs *)

Section SameInputs.

Lemma lookup_text_with_page prior w p :
  p ≠ page_path → lookup_text (with_page prior w) p = lookup_text w p.
Proof.
  intros Hp. unfold lookup_text, with_page. simpl.
  by rewrite lookup_partial_alter_ne.
Qed.

Lemma lookup_text_rendered w out l p :
  p ≠ page_path → lookup_text (rendered w out l) p = lookup_text w p.
Proof.
  intros Hp. unfold lookup_text, rendered. simpl.
  by rewrite lookup_insert_ne.
Qed.

End SameInputs.

(** C7. Rendering, then rendering again with the two inputs as they were,
    gives [test.html] the same text both times, whatever [test.html] was
    before the first run and whatever it was made to be (a text, or no
    file) between the runs. *)
Theorem render_twice_same_page args w F T prior :
  test_render args = true →
  lookup_text w js_path = inr F →
  lookup_text w template_path = inr T →
  let w1 := (main args w).2 in
  let w2 := (main args (with_page prior w1)).2 in
  files w1 !! page_path = Some (Str.replace "{}" F T) ∧
  files w2 !! page_path = files w1 !! page_path ∧
  written page_path (run_events args (with_page prior w1)) =
  written page_path (run_events args w).
Proof.
  intros E Hjs Ht. pose proof (main_renders _ _ _ _ E Hjs Ht) as Hm.
  assert (lookup_text (with_page prior (main args w).2) js_path = inr F) as Hjs'.
  { rewrite lookup_text_with_page, Hm by done. simpl.
    by rewrite lookup_text_rendered. }
  assert (lookup_text (with_page prior (main args w).2) template_path = inr T)
    as Ht'.
  { rewrite lookup_text_with_page, Hm by done. simpl.
    by rewrite lookup_text_rendered. }
  pose proof (main_renders _ _ _ _ E Hjs' Ht') as Hm'.
  cbv zeta.
  rewrite (run_events_of _ _ _ _ _ _ _ Hm'), (run_events_of _ _ _ _ _ _ _ Hm).
  rewrite Hm'. rewrite Hm. unfold rendered. cbn [fst snd files].
  by rewrite !lookup_insert_eq.
Qed.

Lemma render_twice_same_page_witness :
  test_render render_only = true ∧
  lookup_text (sample_world "X" "A{}B{}C") js_path = inr "X" ∧
  lookup_text (sample_world "X" "A{}B{}C") template_path = inr "A{}B{}C" ∧
  files (main render_only
           (with_page (Some "stale")
              (main render_only (sample_world "X" "A{}B{}C")).2)).2
    !! page_path
  = files (main render_only (sample_world "X" "A{}B{}C")).2 !! page_path.
Proof.
  split; [reflexivity |]. split; [reflexivity |]. split; [reflexivity |].
  apply (render_twice_same_page render_only (sample_world "X" "A{}B{}C")
           "X" "A{}B{}C" (Some "stale")); reflexivity.
Defined.

(** C9. Two runs with the same switches from worlds in which the two
    inputs read the same end with the same status and perform the same
    events, so the same text is written to [test.html]; and when the page
    is written, it holds that text after both runs, whatever it was, or
    was not, before. *)
Theorem same_inputs_same_page args w1 w2 :
  lookup_text w1 js_path = lookup_text w2 js_path →
  lookup_text w1 template_path = lookup_text w2 template_path →
  (main args w1).1 = (main args w2).1 ∧
  run_events args w1 = run_events args w2 ∧
  written page_path (run_events args w1) =
  written page_path (run_events args w2) ∧
  (written page_path (run_events args w1) ≠ [] →
   files (main args w1).2 !! page_path = files (main args w2).2 !! page_path ∧
   ∃ out, written page_path (run_events args w1) = [out] ∧
          files (main args w1).2 !! page_path = Some out).
Proof.
  intros Hjs Ht.
  destruct (test_render args) eqn:E.
  - destruct (lookup_text_cases w1 js_path) as [[e Hjs1]|[F Hjs1]].
    { pose proof (main_js_fails _ _ _ E Hjs1) as Hm1.
      rewrite Hjs in Hjs1. pose proof (main_js_fails _ _ _ E Hjs1) as Hm2.
      rewrite (run_events_of _ _ _ _ _ _ _ Hm1),
        (run_events_of _ _ _ _ _ _ _ Hm2), Hm1, Hm2. done. }
    destruct (lookup_text_cases w1 template_path) as [[e Ht1]|[T Ht1]].
    { pose proof (main_template_fails _ _ _ _ E Hjs1 Ht1) as Hm1.
      rewrite Hjs in Hjs1. rewrite Ht in Ht1.
      pose proof (main_template_fails _ _ _ _ E Hjs1 Ht1) as Hm2.
      rewrite (run_events_of _ _ _ _ _ _ _ Hm1),
        (run_events_of _ _ _ _ _ _ _ Hm2), Hm1, Hm2. done. }
    pose proof (main_renders _ _ _ _ E Hjs1 Ht1) as Hm1.
    rewrite Hjs in Hjs1. rewrite Ht in Ht1.
    pose proof (main_renders _ _ _ _ E Hjs1 Ht1) as Hm2.
    rewrite (run_events_of _ _ _ _ _ _ _ Hm1),
      (run_events_of _ _ _ _ _ _ _ Hm2), Hm1, Hm2.
    unfold rendered. cbn [fst snd files].
    rewrite !lookup_insert_eq, written_render_events.
    repeat split; eauto.
  - pose proof (main_no_render _ w1 E) as Hm1.
    pose proof (main_no_render _ w2 E) as Hm2.
    rewrite (run_events_of _ _ _ _ _ _ _ Hm1),
      (run_events_of _ _ _ _ _ _ _ Hm2), Hm1, Hm2.
    by destruct (test_browser args).
Qed.

Lemma same_inputs_same_page_witness :
  lookup_text (sample_world "X" "A{}B{}C") js_path =
  lookup_text (with_page (Some "stale") (sample_world "X" "A{}B{}C")) js_path ∧
  lookup_text (sample_world "X" "A{}B{}C") template_path =
  lookup_text (with_page (Some "stale") (sample_world "X" "A{}B{}C"))
    template_path ∧
  run_events both_flags (sample_world "X" "A{}B{}C") =
  run_events both_flags (with_page (Some "stale") (sample_world "X" "A{}B{}C")).
Proof.
  split; [reflexivity |]. split; [reflexivity |].
  apply (same_inputs_same_page both_flags (sample_world "X" "A{}B{}C")
           (with_page (Some "stale") (sample_world "X" "A{}B{}C")));
    reflexivity.
Defined.

(** * Further properties of the script *)

(** ** The shapes of a run *)

(** A run is one of four: no render step; the render step stopped by the
    script file; stopped by the template; or run to its end. *)
Lemma main_cases args w :
  (test_render args = false ∧
   main args w = (0%Z, logged w (browser_events (test_browser args)))) ∨
  (test_render args = true ∧
   ∃ e, lookup_text w js_path = inl e ∧
        main args w = (1%Z, logged w [EvOpenFailed js_path ModeR])) ∨
  (test_render args = true ∧
   ∃ F e, lookup_text w js_path = inr F ∧
          lookup_text w template_path = inl e ∧
          main args w =
          (1%Z, logged w [EvOpen js_path ModeR; EvRead js_path;
                          EvClose js_path;
                          EvOpenFailed template_path ModeR])) ∨
  (test_render args = true ∧
   ∃ F T, lookup_text w js_path = inr F ∧
          lookup_text w template_path = inr T ∧
          main args w =
          (0%Z, rendered w (Str.replace "{}" F T)
                  (render_events (Str.replace "{}" F T) ++
                   browser_events (test_browser args)))).
Proof.
  destruct (test_render args) eqn:E.
  - right.
    destruct (lookup_text_cases w js_path) as [[e Hjs]|[F Hjs]].
    { left. split; [done |]. exists e. split; [done |].
      by apply main_js_fails with e. }
    right.
    destruct (lookup_text_cases w template_path) as [[e Ht]|[T Ht]].
    + left. split; [done |]. exists F, e. split; [done |]. split; [done |].
      by apply main_template_fails with F e.
    + right. split; [done |]. exists F, T. split; [done |]. split; [done |].
      by apply main_renders.
  - left. split; [done |]. by apply main_no_render.
Qed.

(** Settles a statement about a run by its four shapes. *)
Ltac by_run_shape args w :=
  let Hm := fresh "Hm" in
  destruct (main_cases args w)
    as [[? Hm]|[[? (? & ? & Hm)]|[[? (? & ? & ? & ? & Hm)]
                                 |[? (? & ? & ? & ? & Hm)]]]];
  rewrite ?(run_events_of _ _ _ _ _ _ _ Hm), ?Hm.

(** X1. Whatever the switches and the directory, a run leaves every
    file but [test.html] as it was: present with the same text, or
    absent. The inputs are never changed, and nothing else is created
    or removed. *)
Theorem only_page_changes args w p :
  p ≠ page_path →
  files (main args w).2 !! p = files w !! p.
Proof.
  intros Hp. by_run_shape args w; try done.
  unfold rendered. cbn [snd files]. by rewrite lookup_insert_ne.
Qed.

Lemma only_page_changes_witness :
  js_path ≠ page_path ∧
  files (main both_flags (sample_world "X" "A{}B{}C")).2 !! js_path
  = files (sample_world "X" "A{}B{}C") !! js_path.
Proof.
  assert (js_path ≠ page_path) as Hp by done.
  split; [exact Hp |].
  exact (only_page_changes both_flags (sample_world "X" "A{}B{}C") js_path Hp).
Defined.

(** ** What ends the render step *)

(** X2. With [--test-render] set, a script file that cannot be opened
    ends the script with the exception of that open, file not found or
    permission refused, whatever the state of the template and of
    [test.html]: the failed open of line 10 is the only event of the
    run, and the template is not even opened. *)
Theorem render_error_is_first_failure args w e :
  test_render args = true →
  lookup_text w js_path = inl e →
  (script args w).1 = Raised e ∧
  (e = FileNotFoundError js_path ∨ e = PermissionError js_path) ∧
  run_events args w = [EvOpenFailed js_path ModeR].
Proof.
  intros E Hjs. split; [| split].
  - rewrite script_run, E. cbn [when].
    by rewrite (render_step_js_fails _ _ Hjs).
  - unfold lookup_text in Hjs.
    destruct (files w !! js_path); [| left; congruence].
    destruct (decide (js_path ∈ unreadable w)); [right |]; congruence.
  - exact (run_events_of _ _ _ _ _ _ _ (main_js_fails _ _ _ E Hjs)).
Qed.

Lemma render_error_is_first_failure_witness :
  test_render both_flags = true ∧
  lookup_text empty_dir js_path = inl (FileNotFoundError js_path) ∧
  (script both_flags empty_dir).1 = Raised (FileNotFoundError js_path).
Proof.
  split; [reflexivity |]. split; [reflexivity |].
  exact (proj1 (render_error_is_first_failure both_flags empty_dir
                  (FileNotFoundError js_path) eq_refl eq_refl)).
Defined.

(** ** The discipline of a run *)

(** X4. In every run the file objects are scoped as the [with] blocks
    say: at most one file is open at a time, it is read or written only
    while open and in the mode it was opened in, it is closed before the
    next file is opened and before the browser is asked, and no file is
    left open at the end; when an input cannot be opened, the run ends
    with no file object open. *)
Theorem run_is_scoped args w : scoped (run_events args w) = true.
Proof.
  by_run_shape args w; by destruct (test_browser args).
Qed.

(** X5. In every run the two inputs are only opened for reading, read
    and closed, and [test.html] is only opened for writing, written and
    closed: the script never writes to its inputs and never reads its
    output, and the browser is asked for [test.html] only. *)
Theorem run_is_permitted args w :
  Forall (λ e, permitted e = true) (run_events args w).
Proof.
  by_run_shape args w; destruct (test_browser args); by repeat constructor.
Qed.

(** X6. What the browser launcher answers is dropped: the exit status,
    the files and the events of a run are the same whether
    [webbrowser.open] returns [True] or [False]. *)
Theorem browser_answer_is_dropped args w b :
  (main args (with_browser b w)).1 = (main args w).1 ∧
  files (main args (with_browser b w)).2 = files (main args w).2 ∧
  run_events args (with_browser b w) = run_events args w.
Proof.
  destruct (main_cases args w)
    as [[E Hm]|[[E (e & Hjs & Hm)]|[[E (F & e & Hjs & Ht & Hm)]
                                   |[E (F & T & Hjs & Ht & Hm)]]]].
  - pose proof (main_no_render args (with_browser b w) E) as Hm'.
    by rewrite (run_events_of _ _ _ _ _ _ _ Hm'),
      (run_events_of _ _ _ _ _ _ _ Hm), Hm', Hm.
  - pose proof (main_js_fails args (with_browser b w) e E Hjs) as Hm'.
    by rewrite (run_events_of _ _ _ _ _ _ _ Hm'),
      (run_events_of _ _ _ _ _ _ _ Hm), Hm', Hm.
  - pose proof (main_template_fails args (with_browser b w) F e E Hjs Ht)
      as Hm'.
    by rewrite (run_events_of _ _ _ _ _ _ _ Hm'),
      (run_events_of _ _ _ _ _ _ _ Hm), Hm', Hm.
  - pose proof (main_renders args (with_browser b w) F T E Hjs Ht) as Hm'.
    by rewrite (run_events_of _ _ _ _ _ _ _ Hm'),
      (run_events_of _ _ _ _ _ _ _ Hm), Hm', Hm.
Qed.

(** ** One run and two *)

(** X7. A run with both switches is the run of its render step alone
    followed, when that one ended with status 0, by a run of its browser
    step alone from the world the first one left; when the render step
    failed, the run is that of the render step alone. *)
Theorem run_in_two_invocations args w :
  main args w =
  if decide ((main (render_part args) w).1 = 0%Z)
  then main (browser_part args) (main (render_part args) w).2
  else main (render_part args) w.
Proof.
  destruct (main_cases args w)
    as [[E Hm]|[[E (e & Hjs & Hm)]|[[E (F & e & Hjs & Ht & Hm)]
                                   |[E (F & T & Hjs & Ht & Hm)]]]].
  - rewrite (main_no_render (render_part args) w E). cbn [fst snd].
    rewrite decide_True by done.
    rewrite (main_no_render (browser_part args)) by done.
    by rewrite Hm, logged_logged.
  - rewrite (main_js_fails (render_part args) w e E Hjs). cbn [fst].
    by rewrite decide_False.
  - rewrite (main_template_fails (render_part args) w F e E Hjs Ht).
    cbn [fst]. by rewrite decide_False.
  - rewrite (main_renders (render_part args) w F T E Hjs Ht). cbn [fst snd].
    rewrite decide_True by done.
    rewrite (main_no_render (browser_part args)) by done.
    rewrite Hm. unfold logged, rendered. cbn.
    by rewrite <- app_assoc.
Qed.


(** ** The size and the parts of the page *)

Lemma length_append (s t : string) :
  String.length (s +:+ t) = String.length s + String.length t.
Proof.
  induction s as [|c s IH]; [by rewrite append_nil_l |].
  rewrite append_cons. simpl. by rewrite IH.
Qed.

Lemma length_join F p ps :
  String.length (Str.join F (p :: ps)) + length ps * 2 =
  String.length (Str.join "{}" (p :: ps)) + length ps * String.length F.
Proof.
  revert p. induction ps as [|q ps IH]; intros p; [done |].
  rewrite !join_cons_cons, !length_append. specialize (IH q).
  cbn [length]. change (String.length "{}") with 2. lia.
Qed.

(** X9. The page is as long as the template with each placeholder, two
    characters, exchanged for the script: nothing else is added and
    nothing else is lost. *)
Theorem replace_length F T :
  String.length (Str.replace "{}" F T) + Str.occurrences "{}" T * 2 =
  String.length T + Str.occurrences "{}" T * String.length F.
Proof.
  destruct (pieces_exist T) as (p & ps & -> & Hall).
  rewrite occurrences_join, replace_join by done.
  cbn [length]. replace (S (length ps) - 1) with (length ps) by lia.
  apply length_join.
Qed.

(** X10. A placeholder cuts the template in two parts that are rendered
    apart: the page of [A{}B] is the page of [A], the script, and the
    page of [B], whatever [A] and [B] hold. The script put in is not
    searched again. *)
Theorem replace_at_placeholder F A B :
  Str.replace "{}" F (A +:+ "{}" +:+ B) =
  Str.replace "{}" F A +:+ F +:+ Str.replace "{}" F B.
Proof.
  destruct (pieces_exist A) as (p & ps & -> & Hall).
  revert p Hall. induction ps as [|q ps IH]; intros p Hall.
  - apply Forall_cons in Hall as [Hp _]. cbn [Str.join].
    by rewrite replace_piece, (replace_free F p).
  - apply Forall_cons in Hall as [Hp Hall].
    rewrite join_cons_cons, !append_assoc.
    rewrite !(replace_piece F p) by done.
    rewrite IH by done. by rewrite !append_assoc.
Qed.
